(** * careers_backend: a shallow embedding of the FastAPI application

    The development follows the layout of the repository:

    - [Config]   : [app/core/config.py], the [Settings] class and its defaults;
    - [Schemas]  : the interface of [app/schemas] (Create and Read schemas);
    - models, the table store and the data-access layer ([app/models],
      [app/crud], [app/db/session.py]);
    - the endpoint functions of [app/api/v1/endpoints/items.py],
      [app/api/v1/endpoints/users.py], [app/api/deps.py] and [app/main.py];
    - the route table built by [app/main.py] and the request cycle that
      wires session, schema and endpoint together.

    Python integers are unbounded, hence [Z]; [str] is [string]; an optional
    argument ([email: str = None]) is an [option]; a function that reads or
    writes the store threads the tables explicitly; [raise HTTPException]
    is the [Raise] outcome of the handler monad. *)

From Stdlib Require Import ZArith List String Bool Lia.
Import ListNotations.

Local Set Warnings "-register-all".

Local Open Scope string_scope.
Local Open Scope list_scope.
Local Open Scope Z_scope.

(** ** JSON values (request bodies and response contents) *)

Inductive json : Type :=
| JNull
| JBool (b : bool)
| JInt (n : Z)
| JStr (s : string)
| JArr (elements : list json)
| JObj (members : list (string * json)).

(** ** app/core/config.py *)

Module Config.

(** [class Settings(BaseSettings)]: four typed fields. *)
Record Settings : Type := {
  API_V1_STR : string;
  DATABASE_URL : string;
  SECRET_KEY : string;
  ACCESS_TOKEN_EXPIRE_MINUTES : Z
}.

(** What [BaseSettings] finds for each field in the process environment
    or in the [.env] file ([Config.env_file]), already converted to the
    field's type; [None] when the variable is not set. *)
Record Environ : Type := {
  env_API_V1_STR : option string;
  env_DATABASE_URL : option string;
  env_SECRET_KEY : option string;
  env_ACCESS_TOKEN_EXPIRE_MINUTES : option Z
}.

Definition environ_unset : Environ :=
  {| env_API_V1_STR := None;
     env_DATABASE_URL := None;
     env_SECRET_KEY := None;
     env_ACCESS_TOKEN_EXPIRE_MINUTES := None |}.

(** A field takes the environment's value when there is one and the
    default written in the class otherwise. *)
Definition field {A : Type} (default : A) (found : option A) : A :=
  match found with
  | Some v => v
  | None => default
  end.

(** [settings = Settings()] *)
Definition settings (env : Environ) : Settings :=
  {| API_V1_STR := field "/api/v1" (env_API_V1_STR env);
     DATABASE_URL := field "sqlite:///./test.db" (env_DATABASE_URL env);
     SECRET_KEY := field "YOUR_SECRET_KEY" (env_SECRET_KEY env);
     ACCESS_TOKEN_EXPIRE_MINUTES :=
       field 30 (env_ACCESS_TOKEN_EXPIRE_MINUTES env) |}.

End Config.

(** ** app/schemas: Create and Read schemas

    The package is imported by the endpoints ([Item], [ItemCreate], [User],
    [UserCreate]) but its field lists are not part of the sources at hand,
    so the schemas are an interface: the type of a validated Create
    payload, the validation of a request body against it, and the Read
    view of a record (its identity together with the stored fields). *)

Class Schemas : Type := {
  ItemCreate : Type;
  UserCreate : Type;
  (** validation of a request body; [None] is a validation failure *)
  ItemCreate_validate : json -> option ItemCreate;
  UserCreate_validate : json -> option UserCreate;
  (** [user.email] *)
  UserCreate_email : UserCreate -> string;
  (** [response_model=Item] and [response_model=User] *)
  Item_schema : Z -> ItemCreate -> json;
  User_schema : Z -> UserCreate -> json
}.

(** ** fastapi: HTTPException and status codes *)

Record HTTPException : Type := {
  status_code : Z;
  detail : string
}.

Definition HTTP_401_UNAUTHORIZED : Z := 401.

(** What a call evaluates to: a returned value or a raised exception. *)
Inductive outcome (A : Type) : Type :=
| Return (a : A)
| Raise (e : HTTPException).

Arguments Return {A} a.
Arguments Raise {A} e.

Section Application.

Context {schemas : Schemas}.

(** *** app/models: one table per entity *)

Record Item : Type := {
  Item_id : Z;
  Item_fields : ItemCreate
}.

Record User : Type := {
  User_id : Z;
  User_fields : UserCreate
}.

Definition User_email (u : User) : string :=
  UserCreate_email (User_fields u).

(** The tables, rows in insertion order. *)
Record Database : Type := {
  items : list Item;
  users : list User
}.

Definition item_ids (db : Database) : list Z := map Item_id (items db).
Definition user_ids (db : Database) : list Z := map User_id (users db).

(** *** The handler monad: the store is threaded, exceptions propagate *)

Definition Handler (A : Type) : Type := Database -> Database * outcome A.

Definition ret {A : Type} (a : A) : Handler A :=
  fun db => (db, Return a).

Definition raise {A : Type} (e : HTTPException) : Handler A :=
  fun db => (db, Raise e).

Definition bind {A B : Type} (m : Handler A) (k : A -> Handler B)
  : Handler B :=
  fun db =>
    match m db with
    | (db', Return a) => k a db'
    | (db', Raise e) => (db', Raise e)
    end.

(** *** app/crud *)

(** Modelled from the spec: the identity given to a new row, missing
    with [app/models] and the engine ("auto-assigned integer primary
    key", the first one being 1): one more than the largest identity in
    the table. *)
Definition next_id (ids : list Z) : Z :=
  match ids with
  | [] => 1
  | i :: rest => fold_right Z.max i rest + 1
  end.

(** Modelled from the spec: [crud.item.create_item], missing from the
    sources: "inserts one new record built from input's fields, persists
    it, returns the persisted record (including assigned identity)"; no
    constraint is checked. *)
Definition crud_item_create_item (item : ItemCreate) : Handler Item :=
  fun db =>
    let db_item :=
      {| Item_id := next_id (item_ids db); Item_fields := item |} in
    ({| items := items db ++ [db_item]; users := users db |},
     Return db_item).

(** Modelled from the spec: [crud.item.get_item], missing from the
    sources: "returns the record matching the given identity, or an
    absent result if no such record exists"; no error is raised. *)
Definition crud_item_get_item (item_id : Z) : Handler (option Item) :=
  fun db =>
    (db, Return (find (fun r => Item_id r =? item_id) (items db))).

(** Modelled from the spec: [crud.user.create_user], missing from the
    sources; the same contract as for items. *)
Definition crud_user_create_user (user : UserCreate) : Handler User :=
  fun db =>
    let db_user :=
      {| User_id := next_id (user_ids db); User_fields := user |} in
    ({| items := items db; users := users db ++ [db_user] |},
     Return db_user).

(** Modelled from the spec: [crud.user.get_user], missing from the
    sources; the same contract as for items. *)
Definition crud_user_get_user (user_id : Z) : Handler (option User) :=
  fun db =>
    (db, Return (find (fun r => User_id r =? user_id) (users db))).

(** Modelled from the spec: [crud.user.get_user_by_email], missing from
    the sources: "looks up the corresponding user record".  Every stored
    user has an email string, so the lookup of an omitted email
    ([None]) matches no row.  The specification does not say which user
    is found when several share an email; the model takes the one
    created first. *)
Definition crud_user_get_user_by_email (email : option string)
  : Handler (option User) :=
  fun db =>
    match email with
    | None => (db, Return None)
    | Some e =>
        (db, Return (find (fun r => String.eqb (User_email r) e) (users db)))
    end.

(** *** app/api/v1/endpoints/items.py *)

Definition create_item (item : ItemCreate) : Handler Item :=
  crud_item_create_item item.

Definition read_item (item_id : Z) : Handler Item :=
  bind (crud_item_get_item item_id) (fun db_item =>
    match db_item with
    | None => raise {| status_code := 404; detail := "Item not found" |}
    | Some r => ret r
    end).

(** *** app/api/v1/endpoints/users.py *)

Definition create_user (user : UserCreate) : Handler User :=
  crud_user_create_user user.

Definition read_user (user_id : Z) : Handler User :=
  bind (crud_user_get_user user_id) (fun db_user =>
    match db_user with
    | None => raise {| status_code := 404; detail := "User not found" |}
    | Some r => ret r
    end).

(** *** app/api/deps.py *)

Definition get_current_user (email : option string) : Handler User :=
  bind (crud_user_get_user_by_email email) (fun user =>
    match user with
    | None =>
        raise {| status_code := HTTP_401_UNAUTHORIZED;
                 detail := "Invalid credentials" |}
    | Some u => ret u
    end).

(** *** app/main.py *)

Definition read_root : json :=
  JObj [("message", JStr "Welcome to the FastAPI application!")].

(** **** The route table *)

Inductive method : Type := GET | POST.

Inductive endpoint : Type :=
| Ecreate_item
| Eread_item
| Ecreate_user
| Eread_user
| Eread_root.

Record route : Type := {
  route_method : method;
  route_path : string;
  route_endpoint : endpoint
}.

(** [router = APIRouter()] of items.py with its two decorated functions. *)
Definition items_router : list route :=
  [ {| route_method := POST; route_path := "/";
       route_endpoint := Ecreate_item |};
    {| route_method := GET; route_path := "/{item_id}";
       route_endpoint := Eread_item |} ].

(** [router = APIRouter()] of users.py. *)
Definition users_router : list route :=
  [ {| route_method := POST; route_path := "/";
       route_endpoint := Ecreate_user |};
    {| route_method := GET; route_path := "/{user_id}";
       route_endpoint := Eread_user |} ].

(** [app.include_router(router, prefix=...)]: every route of the router
    is added with the prefix in front of its path.  This is the table the
    framework builds when it accepts the prefix; it refuses, when the
    module is imported, a prefix that is not empty and does not start
    with ["/"]. *)
Definition include_router (router : list route) (prefix : string)
  : list route :=
  map (fun r =>
         {| route_method := route_method r;
            route_path := String.append prefix (route_path r);
            route_endpoint := route_endpoint r |})
      router.

(** The routes of [app], in the order main.py registers them. *)
Definition app_routes (settings : Config.Settings) : list route :=
  include_router items_router
    (String.append (Config.API_V1_STR settings) "/items")
  ++ include_router users_router
    (String.append (Config.API_V1_STR settings) "/users")
  ++ [ {| route_method := GET; route_path := "/";
          route_endpoint := Eread_root |} ].

(** *** app/db/session.py and the request cycle *)

(** The store together with the sessions of the session factory:
    [session_count] sessions have been created so far (they are numbered
    from 0) and [open_sessions] are those not yet closed. *)
Record World : Type := {
  store : Database;
  session_count : nat;
  open_sessions : list nat
}.

Definition set_store (db : Database) (w : World) : World :=
  {| store := db;
     session_count := session_count w;
     open_sessions := open_sessions w |}.

(** [db = SessionLocal()] *)
Definition SessionLocal (w : World) : World * nat :=
  let db := session_count w in
  ({| store := store w;
      session_count := S db;
      open_sessions := db :: open_sessions w |}, db).

(** [db.close()] *)
Definition close (db : nat) (w : World) : World :=
  {| store := store w;
     session_count := session_count w;
     open_sessions := remove Nat.eq_dec db (open_sessions w) |}.

(** Modelled from the spec: [get_db], which deps.py imports from
    [app/db/session.py], missing from the sources: "Each request acquires
    a store session/connection scoped to that request only, released
    unconditionally at the end of the request (success or failure)", "an
    explicit acquire/release around each request handler's body (or an
    equivalent guaranteed-cleanup construct)".  The dependency opens a
    session, hands it to what the request does with it ([during]), and
    closes it on both ways out: when [during] returns and when it raises,
    the exception then going on. *)
Definition get_db {A : Type} (during : nat -> World -> World * outcome A)
  (w : World) : World * outcome A :=
  let (w1, db) := SessionLocal w in
  match during db w1 with
  | (w2, Return a) => (close db w2, Return a)
  | (w2, Raise e) => (close db w2, Raise e)
  end.


(** An endpoint function works on the store through the session [db] it
    was given. *)
Definition in_session {A : Type} (h : Handler A) (db : nat) (w : World)
  : World * outcome A :=
  let (st, o) := h (store w) in (set_store st w, o).

(** A POST body the framework could not read, which it finds out before
    it resolves any dependency: bytes that are not JSON
    ([json.JSONDecodeError]), or that fail in another way. *)
Inductive body_error : Type :=
| JSONDecodeError
| OtherBodyError.

(** A request, by what the framework makes of it:
    - the five requests that reach an endpoint function with their
      parameters in hand: the raw JSON body of a POST, the integer parsed
      from the path of a GET;
    - a GET on an entity path whose last segment is not an integer;
    - a POST on an entity path whose body could not be read;
    - a request that matches none of the routes of main.py. *)
Inductive request : Type :=
| GET_root
| POST_items (body : json)
| GET_items (item_id : Z)
| POST_users (body : json)
| GET_users (user_id : Z)
| GET_items_invalid
| GET_users_invalid
| POST_items_unread (e : body_error)
| POST_users_unread (e : body_error)
| Unrouted.

(** [FrameworkResponse] is an answer the framework gives without any
    endpoint of the application (not found, method not allowed, a
    redirect, the documentation pages). *)
Inductive response : Type :=
| JSONResponse (status : Z) (content : json)
| RequestValidationError
| FrameworkResponse.

(** The framework's rendering of what an endpoint came to: a returned
    value goes through the response model with status 200, an
    [HTTPException] becomes its status code with [{"detail": ...}]. *)
Definition render {A : Type} (response_model : A -> json) (o : outcome A)
  : response :=
  match o with
  | Return a => JSONResponse 200 (response_model a)
  | Raise e => JSONResponse (status_code e) (JObj [("detail", JStr (detail e))])
  end.

Definition Item_response_model (r : Item) : json :=
  Item_schema (Item_id r) (Item_fields r).

Definition User_response_model (r : User) : json :=
  User_schema (User_id r) (User_fields r).

(** With the dependencies resolved, an endpoint whose parameters were
    validated ([Some]) is called; otherwise the endpoint is not called
    and there is no value ([None]). *)
Definition call {P A : Type} (validated : option P)
  (endpoint_fn : P -> Handler A) : Handler (option A) :=
  fun db =>
    match validated with
    | None => (db, Return None)
    | Some p =>
        match endpoint_fn p db with
        | (db', Return a) => (db', Return (Some a))
        | (db', Raise e) => (db', Raise e)
        end
    end.

(** The answer once the dependencies are released: the validation error
    when the endpoint was not called, its rendered outcome otherwise. *)
Definition respond {A : Type} (response_model : A -> json)
  (o : outcome (option A)) : response :=
  match o with
  | Return None => RequestValidationError
  | Return (Some a) => render response_model (Return a)
  | Raise e => render response_model (Raise e)
  end.

(** A route whose endpoint declares [db: Session = Depends(deps.get_db)]:
    the dependency is resolved first, the parameters are validated and
    the endpoint called inside it. *)
Definition route_with_db {P A : Type} (validated : option P)
  (endpoint_fn : P -> Handler A) (response_model : A -> json) (w : World)
  : World * response :=
  let (w', o) := get_db (in_session (call validated endpoint_fn)) w in
  (w', respond response_model o).

(** A body that could not be read is answered before any dependency is
    resolved: with the validation error for bytes that are not JSON,
    with a 400 otherwise. *)
Definition body_error_response (e : body_error) : response :=
  match e with
  | JSONDecodeError => RequestValidationError
  | OtherBodyError =>
      JSONResponse 400
        (JObj [("detail", JStr "There was an error parsing the body")])
  end.

(** One request against the application. *)
Definition serve (req : request) (w : World) : World * response :=
  match req with
  | GET_root => (w, JSONResponse 200 read_root)
  | POST_items body =>
      route_with_db (ItemCreate_validate body) create_item
        Item_response_model w
  | GET_items item_id =>
      route_with_db (Some item_id) read_item Item_response_model w
  | POST_users body =>
      route_with_db (UserCreate_validate body) create_user
        User_response_model w
  | GET_users user_id =>
      route_with_db (Some user_id) read_user User_response_model w
  | GET_items_invalid =>
      route_with_db (@None Z) read_item Item_response_model w
  | GET_users_invalid =>
      route_with_db (@None Z) read_user User_response_model w
  | POST_items_unread e => (w, body_error_response e)
  | POST_users_unread e => (w, body_error_response e)
  | Unrouted => (w, FrameworkResponse)
  end.

(** Requests served one after the other. *)
Fixpoint run (reqs : list request) (w : World) : World * list response :=
  match reqs with
  | [] => (w, [])
  | req :: rest =>
      let (w1, resp) := serve req w in
      let (w2, resps) := run rest w1 in
      (w2, resp :: resps)
  end.

(** The process at start-up: [create_all] on an absent database leaves
    empty tables; no session has been created. *)
Definition startup : World :=
  {| store := {| items := []; users := [] |};
     session_count := 0;
     open_sessions := [] |}.

End Application.

(** ** Schemas to run the application on

    The smallest schemas that fit the specification's example scenario: a
    user is created from [{"email": ...}], an item from [{"title": ...}],
    and the Read view adds ["id"] in front. *)

Definition member (key : string) (body : json) : option json :=
  match body with
  | JObj members =>
      option_map snd (find (fun m => String.eqb (fst m) key) members)
  | _ => None
  end.

Definition str_member (key : string) (body : json) : option string :=
  match member key body with
  | Some (JStr s) => Some s
  | _ => None
  end.

Definition example_schemas : Schemas :=
  {| ItemCreate := string;
     UserCreate := string;
     ItemCreate_validate := str_member "title";
     UserCreate_validate := str_member "email";
     UserCreate_email := fun email => email;
     Item_schema := fun id title =>
       JObj [("id", JInt id); ("title", JStr title)];
     User_schema := fun id email =>
       JObj [("id", JInt id); ("email", JStr email)] |}.

(** The specification's example: [POST /users/] with
    [{"email": "a@example.com"}] on the application as started, followed
    by the creation of one item. *)
Definition example_user_body : json := JObj [("email", JStr "a@example.com")].

Definition example_item_body : json := JObj [("title", JStr "first")].

Definition example_world : @World example_schemas :=
  fst (run [POST_users example_user_body; POST_items example_item_body]
         startup).

(** * Properties *)

(** ** Strings *)

Lemma string_append_assoc (a b c : string) :
  String.append (String.append a b) c = String.append a (String.append b c).
Proof.
  induction a as [|ch a IH]; simpl; [reflexivity|]. now rewrite IH.
Qed.

Lemma string_length_append (a b : string) :
  String.length (String.append a b) = (String.length a + String.length b)%nat.
Proof.
  induction a as [|ch a IH]; simpl; [reflexivity|]. now rewrite IH.
Qed.

Lemma string_append_inj_l (a b c : string) :
  String.append a b = String.append a c -> b = c.
Proof.
  induction a as [|ch a IH]; simpl; [auto|].
  intros Heq. injection Heq as Heq. auto.
Qed.

(** ** Identities handed out by the store *)

Lemma fold_max_lower (rest : list Z) (i : Z) :
  i <= fold_right Z.max i rest.
Proof.
  induction rest as [|x rest IH]; simpl; lia.
Qed.

Lemma fold_max_upper (rest : list Z) (i x : Z) :
  In x rest -> x <= fold_right Z.max i rest.
Proof.
  induction rest as [|y rest IH]; simpl; [tauto|].
  intros [->|Hin]; [lia|]. specialize (IH Hin). lia.
Qed.

Lemma next_id_above (ids : list Z) (x : Z) :
  In x ids -> x < next_id ids.
Proof.
  destruct ids as [|i rest]; simpl; [tauto|].
  intros [->|Hin].
  - pose proof (fold_max_lower rest x). lia.
  - pose proof (fold_max_upper rest i x Hin). lia.
Qed.

Lemma next_id_fresh (ids : list Z) : ~ In (next_id ids) ids.
Proof.
  intros Hin. apply next_id_above in Hin. lia.
Qed.

(** ** Lookups in a table *)

Section Tables.

Context {R : Type} (key : R -> Z).

Lemma find_key_absent (rows : list R) (k : Z) :
  ~ In k (map key rows) -> find (fun r => key r =? k) rows = None.
Proof.
  induction rows as [|r rows IH]; simpl; [reflexivity|].
  intros Hnot. destruct (Z.eqb_spec (key r) k) as [Heq|Hne].
  - exfalso. apply Hnot. now left.
  - apply IH. intros Hin. apply Hnot. now right.
Qed.

Lemma find_key_present (rows : list R) (k : Z) :
  In k (map key rows) ->
  exists r, find (fun r => key r =? k) rows = Some r /\ In r rows /\ key r = k.
Proof.
  induction rows as [|r rows IH]; simpl; [tauto|].
  intros Hin. destruct (Z.eqb_spec (key r) k) as [Heq|Hne].
  - exists r. auto.
  - destruct Hin as [Heq|Hin]; [contradiction|].
    destruct (IH Hin) as (r' & Hfind & Hin' & Hk). exists r'. auto.
Qed.

Lemma find_key_appended (rows : list R) (r : R) :
  ~ In (key r) (map key rows) ->
  find (fun r' => key r' =? key r) (rows ++ [r]) = Some r.
Proof.
  induction rows as [|r0 rows IH]; simpl; intros Hnot.
  - now rewrite Z.eqb_refl.
  - destruct (Z.eqb_spec (key r0) (key r)) as [Heq|Hne].
    + exfalso. apply Hnot. now left.
    + apply IH. intros Hin. apply Hnot. now right.
Qed.

End Tables.

(** A lookup that succeeded, or failed, and the table it ran on. *)

Lemma find_app_some {R : Type} (f : R -> bool) (rows new : list R) (r : R) :
  find f rows = Some r -> find f (rows ++ new) = Some r.
Proof.
  induction rows as [|r0 rows IH]; simpl; [discriminate|].
  destruct (f r0); auto.
Qed.

Lemma find_app_none {R : Type} (f : R -> bool) (rows new : list R) :
  find f rows = None -> find f (rows ++ new) = find f new.
Proof.
  induction rows as [|r0 rows IH]; simpl; [reflexivity|].
  destruct (f r0); [discriminate|auto].
Qed.

Lemma find_key_none {R : Type} (key : R -> Z) (rows : list R) (k : Z) :
  find (fun r => key r =? k) rows = None -> ~ In k (map key rows).
Proof.
  intros Hfind Hin. apply in_map_iff in Hin. destruct Hin as (r & Hk & Hin).
  apply (find_none _ _ Hfind) in Hin. apply Z.eqb_neq in Hin. contradiction.
Qed.

Lemma NoDup_map_eq {R : Type} (key : R -> Z) (rows : list R) (r r' : R) :
  NoDup (map key rows) -> In r rows -> In r' rows -> key r = key r' -> r = r'.
Proof.
  induction rows as [|r0 rows IH]; simpl; [tauto|].
  intros Hnd Hr Hr' Hk. inversion Hnd as [|k ks Hnot Hnd']; subst.
  destruct Hr as [<-|Hr], Hr' as [<-|Hr']; auto.
  - exfalso. apply Hnot. rewrite Hk. now apply in_map.
  - exfalso. apply Hnot. rewrite <- Hk. now apply in_map.
Qed.

Section Properties.

Context {schemas : Schemas}.

(** ** The request cycle around an endpoint *)

Lemma get_db_eq {A : Type} (during : nat -> World -> World * outcome A)
  (w : World) :
  get_db during w
  = (close (session_count w)
       (fst (during (session_count w) (fst (SessionLocal w)))),
     snd (during (session_count w) (fst (SessionLocal w)))).
Proof.
  unfold get_db, SessionLocal. cbn [fst snd].
  now destruct (during _ _) as [w2 [a|e]].
Qed.

Lemma in_session_eq {A : Type} (h : Handler A) (db : nat) (w : World) :
  in_session h db w = (set_store (fst (h (store w))) w, snd (h (store w))).
Proof.
  unfold in_session. now destruct (h (store w)).
Qed.

Lemma route_with_db_eq {P A : Type} (validated : option P)
  (endpoint_fn : P -> Handler A) (response_model : A -> json) (w : World) :
  route_with_db validated endpoint_fn response_model w
  = ({| store := fst (call validated endpoint_fn (store w));
        session_count := S (session_count w);
        open_sessions :=
          remove Nat.eq_dec (session_count w)
            (session_count w :: open_sessions w) |},
     respond response_model (snd (call validated endpoint_fn (store w)))).
Proof.
  unfold route_with_db. rewrite get_db_eq, in_session_eq. reflexivity.
Qed.

Lemma route_with_db_response {P A : Type} (validated : option P)
  (endpoint_fn : P -> Handler A) (response_model : A -> json) (w : World) :
  snd (route_with_db validated endpoint_fn response_model w)
  = respond response_model (snd (call validated endpoint_fn (store w))).
Proof. now rewrite route_with_db_eq. Qed.

Lemma route_with_db_store {P A : Type} (validated : option P)
  (endpoint_fn : P -> Handler A) (response_model : A -> json) (w : World) :
  store (fst (route_with_db validated endpoint_fn response_model w))
  = fst (call validated endpoint_fn (store w)).
Proof. now rewrite route_with_db_eq. Qed.



Lemma call_store {P A : Type} (p : P) (endpoint_fn : P -> Handler A)
  (db : Database) :
  fst (call (Some p) endpoint_fn db) = fst (endpoint_fn p db).
Proof.
  unfold call. now destruct (endpoint_fn p db) as [db' [a|e]].
Qed.

Lemma call_respond {P A : Type} (p : P) (endpoint_fn : P -> Handler A)
  (response_model : A -> json) (db : Database) :
  respond response_model (snd (call (Some p) endpoint_fn db))
  = render response_model (snd (endpoint_fn p db)).
Proof.
  unfold call. now destruct (endpoint_fn p db) as [db' [a|e]].
Qed.

(** ** The two read endpoints, case by case *)

Lemma read_item_absent (db : Database) (i : Z) :
  ~ In i (item_ids db) ->
  read_item i db
  = (db, Raise {| status_code := 404; detail := "Item not found" |}).
Proof.
  intros Hnot. unfold read_item, bind, crud_item_get_item.
  now rewrite (find_key_absent Item_id _ _ Hnot).
Qed.

Lemma read_item_present (db : Database) (i : Z) :
  In i (item_ids db) ->
  exists r, In r (items db) /\ Item_id r = i
            /\ read_item i db = (db, Return r).
Proof.
  intros Hin. destruct (find_key_present Item_id _ _ Hin)
    as (r & Hfind & Hr & Hk).
  exists r. repeat split; try assumption.
  unfold read_item, bind, crud_item_get_item. now rewrite Hfind.
Qed.

Lemma read_user_absent (db : Database) (i : Z) :
  ~ In i (user_ids db) ->
  read_user i db
  = (db, Raise {| status_code := 404; detail := "User not found" |}).
Proof.
  intros Hnot. unfold read_user, bind, crud_user_get_user.
  now rewrite (find_key_absent User_id _ _ Hnot).
Qed.

Lemma read_user_present (db : Database) (i : Z) :
  In i (user_ids db) ->
  exists r, In r (users db) /\ User_id r = i
            /\ read_user i db = (db, Return r).
Proof.
  intros Hin. destruct (find_key_present User_id _ _ Hin)
    as (r & Hfind & Hr & Hk).
  exists r. repeat split; try assumption.
  unfold read_user, bind, crud_user_get_user. now rewrite Hfind.
Qed.

(** ** What a request does to the store *)

Lemma call_store_read {A : Type} (endpoint_fn : Z -> Handler A)
  (id : Z) (db : Database) :
  fst (endpoint_fn id db) = db ->
  fst (call (Some id) endpoint_fn db) = db.
Proof.
  intros Hread. now rewrite call_store.
Qed.

Lemma read_item_store (id : Z) (db : Database) : fst (read_item id db) = db.
Proof.
  unfold read_item, bind, crud_item_get_item.
  now destruct (find _ _).
Qed.

Lemma read_user_store (id : Z) (db : Database) : fst (read_user id db) = db.
Proof.
  unfold read_user, bind, crud_user_get_user.
  now destruct (find _ _).
Qed.

Lemma serve_store (req : request) (w : World) :
  store (fst (serve req w))
  = match req with
    | POST_items body =>
        match ItemCreate_validate body with
        | Some item => fst (create_item item (store w))
        | None => store w
        end
    | POST_users body =>
        match UserCreate_validate body with
        | Some user => fst (create_user user (store w))
        | None => store w
        end
    | _ => store w
    end.
Proof.
  destruct req as [|body|id|body|id| | |e|e|]; cbn [serve fst];
    try reflexivity; rewrite route_with_db_store.
  - destruct (ItemCreate_validate body) as [item|]; reflexivity.
  - apply call_store_read, read_item_store.
  - destruct (UserCreate_validate body) as [user|]; reflexivity.
  - apply call_store_read, read_user_store.
Qed.

(** No request removes or rewrites a row: the tables only grow at the end. *)
Lemma serve_items_extend (req : request) (w : World) :
  exists new, items (store (fst (serve req w))) = items (store w) ++ new.
Proof.
  rewrite serve_store. destruct req as [|body|id|body|id| | |e|e|];
    try (exists []; now rewrite app_nil_r).
  - destruct (ItemCreate_validate body) as [item|].
    + eexists. reflexivity.
    + exists []. now rewrite app_nil_r.
  - destruct (UserCreate_validate body) as [user|];
      exists []; now rewrite app_nil_r.
Qed.

Lemma serve_users_extend (req : request) (w : World) :
  exists new, users (store (fst (serve req w))) = users (store w) ++ new.
Proof.
  rewrite serve_store. destruct req as [|body|id|body|id| | |e|e|];
    try (exists []; now rewrite app_nil_r).
  - destruct (ItemCreate_validate body) as [item|];
      exists []; now rewrite app_nil_r.
  - destruct (UserCreate_validate body) as [user|].
    + eexists. reflexivity.
    + exists []. now rewrite app_nil_r.
Qed.

Lemma run_cons (req : request) (rest : list request) (w : World) :
  run (req :: rest) w
  = (fst (run rest (fst (serve req w))),
     snd (serve req w) :: snd (run rest (fst (serve req w)))).
Proof.
  cbn [run]. destruct (serve req w) as [w1 resp]. cbn [fst snd].
  destruct (run rest w1) as [w2 resps]. reflexivity.
Qed.

Lemma run_items_extend (reqs : list request) (w : World) :
  exists new, items (store (fst (run reqs w))) = items (store w) ++ new.
Proof.
  revert w. induction reqs as [|req rest IH]; intros w.
  - exists []. cbn. now rewrite app_nil_r.
  - rewrite run_cons. cbn [fst].
    destruct (IH (fst (serve req w))) as [new2 H2].
    destruct (serve_items_extend req w) as [new1 H1].
    exists (new1 ++ new2). now rewrite H2, H1, app_assoc.
Qed.

Lemma run_users_extend (reqs : list request) (w : World) :
  exists new, users (store (fst (run reqs w))) = users (store w) ++ new.
Proof.
  revert w. induction reqs as [|req rest IH]; intros w.
  - exists []. cbn. now rewrite app_nil_r.
  - rewrite run_cons. cbn [fst].
    destruct (IH (fst (serve req w))) as [new2 H2].
    destruct (serve_users_extend req w) as [new1 H1].
    exists (new1 ++ new2). now rewrite H2, H1, app_assoc.
Qed.

(** The primary keys of a table stay pairwise distinct. *)
Lemma next_id_keeps_unique (ids : list Z) :
  NoDup ids -> NoDup (ids ++ [next_id ids]).
Proof.
  intros Hnd. apply NoDup_app; [exact Hnd|repeat constructor; auto|].
  intros x Hin [<-|[]]. now apply next_id_fresh in Hin.
Qed.

Lemma serve_keeps_ids_unique (req : request) (w : World) :
  NoDup (item_ids (store w)) /\ NoDup (user_ids (store w)) ->
  NoDup (item_ids (store (fst (serve req w))))
  /\ NoDup (user_ids (store (fst (serve req w)))).
Proof.
  intros [Hi Hu]. rewrite serve_store.
  destruct req as [|body|id|body|id| | |e|e|]; auto.
  - destruct (ItemCreate_validate body) as [item|]; auto.
    split; [|exact Hu]. unfold item_ids. cbn. rewrite map_app.
    now apply next_id_keeps_unique.
  - destruct (UserCreate_validate body) as [user|]; auto.
    split; [exact Hi|]. unfold user_ids. cbn. rewrite map_app.
    now apply next_id_keeps_unique.
Qed.

Lemma run_keeps_ids_unique (reqs : list request) (w : World) :
  NoDup (item_ids (store w)) /\ NoDup (user_ids (store w)) ->
  NoDup (item_ids (store (fst (run reqs w))))
  /\ NoDup (user_ids (store (fst (run reqs w)))).
Proof.
  revert w. induction reqs as [|req rest IH]; intros w Hw; [exact Hw|].
  rewrite run_cons. cbn [fst]. now apply IH, serve_keeps_ids_unique.
Qed.

(** ** C1: reading back what was just created *)

(** C1. For both entities: [create] returns a record [r] (it never raises),
    and a get-by-id for [r]'s identity on the store as [create] left it
    returns exactly [r], leaving the store as it is. *)
Theorem read_after_create :
  (forall (item : ItemCreate) (db : Database),
      exists db' r,
        create_item item db = (db', Return r)
        /\ read_item (Item_id r) db' = (db', Return r))
  /\ (forall (user : UserCreate) (db : Database),
      exists db' r,
        create_user user db = (db', Return r)
        /\ read_user (User_id r) db' = (db', Return r)).
Proof.
  split.
  - intros item db. eexists; eexists. split; [reflexivity|].
    unfold create_item, crud_item_create_item, read_item, bind,
      crud_item_get_item.
    cbn [items]. rewrite (find_key_appended Item_id); [reflexivity|].
    apply next_id_fresh.
  - intros user db. eexists; eexists. split; [reflexivity|].
    unfold create_user, crud_user_create_user, read_user, bind,
      crud_user_get_user.
    cbn [users]. rewrite (find_key_appended User_id); [reflexivity|].
    apply next_id_fresh.
Qed.

(** ** C2: 404 for an identity without a record, the record otherwise *)

(** C2. For every store and every integer id: when no item (user) has
    that identity, [GET /items/{id}] ([GET /users/{id}]) answers with
    status 404 and [{"detail": "Item not found"}]
    ([{"detail": "User not found"}]), the endpoint having raised the
    [HTTPException] with that status and detail; when a record with that
    identity exists, the endpoint returns such a record of the table and
    the answer is that record through the Read schema. *)
Theorem read_by_id (w : World) (id : Z) :
  (~ In id (item_ids (store w)) ->
     read_item id (store w)
     = (store w, Raise {| status_code := 404; detail := "Item not found" |})
     /\ snd (serve (GET_items id) w)
        = JSONResponse 404 (JObj [("detail", JStr "Item not found")]))
  /\ (~ In id (user_ids (store w)) ->
     read_user id (store w)
     = (store w, Raise {| status_code := 404; detail := "User not found" |})
     /\ snd (serve (GET_users id) w)
        = JSONResponse 404 (JObj [("detail", JStr "User not found")]))
  /\ (In id (item_ids (store w)) ->
     exists r, In r (items (store w)) /\ Item_id r = id
       /\ read_item id (store w) = (store w, Return r)
       /\ snd (serve (GET_items id) w)
          = JSONResponse 200 (Item_schema (Item_id r) (Item_fields r)))
  /\ (In id (user_ids (store w)) ->
     exists r, In r (users (store w)) /\ User_id r = id
       /\ read_user id (store w) = (store w, Return r)
       /\ snd (serve (GET_users id) w)
          = JSONResponse 200 (User_schema (User_id r) (User_fields r))).
Proof.
  split; [|split; [|split]].
  - intros Hnot. split; [now apply read_item_absent|].
    cbn [serve]. rewrite route_with_db_response. unfold call.
    now rewrite (read_item_absent _ _ Hnot).
  - intros Hnot. split; [now apply read_user_absent|].
    cbn [serve]. rewrite route_with_db_response. unfold call.
    now rewrite (read_user_absent _ _ Hnot).
  - intros Hin. destruct (read_item_present _ _ Hin) as (r & Hr & Hk & Hread).
    exists r. repeat split; try assumption.
    cbn [serve]. rewrite route_with_db_response. unfold call.
    now rewrite Hread.
  - intros Hin. destruct (read_user_present _ _ Hin) as (r & Hr & Hk & Hread).
    exists r. repeat split; try assumption.
    cbn [serve]. rewrite route_with_db_response. unfold call.
    now rewrite Hread.
Qed.

(** ** C3: identities are assigned and never handed out twice *)

(** C3. For both entities and every valid create payload: [create] returns
    a record (it never raises) that carries the payload's fields and an
    integer identity borne by no record already in the table, and appends
    it to the table; and whatever requests are served between two creates
    (none, for two creates in sequence), the second record's identity
    differs from the first's. *)
Theorem create_assigns_unique_identity :
  (forall (item : ItemCreate) (db : Database),
      exists db' r,
        create_item item db = (db', Return r)
        /\ Item_fields r = item
        /\ ~ In (Item_id r) (item_ids db)
        /\ items db' = items db ++ [r])
  /\ (forall (user : UserCreate) (db : Database),
      exists db' r,
        create_user user db = (db', Return r)
        /\ User_fields r = user
        /\ ~ In (User_id r) (user_ids db)
        /\ users db' = users db ++ [r])
  /\ (forall (item1 item2 : ItemCreate) (between : list request) (w : World),
      exists db1 r1 db2 r2,
        create_item item1 (store w) = (db1, Return r1)
        /\ create_item item2 (store (fst (run between (set_store db1 w))))
           = (db2, Return r2)
        /\ Item_id r1 <> Item_id r2)
  /\ (forall (user1 user2 : UserCreate) (between : list request) (w : World),
      exists db1 r1 db2 r2,
        create_user user1 (store w) = (db1, Return r1)
        /\ create_user user2 (store (fst (run between (set_store db1 w))))
           = (db2, Return r2)
        /\ User_id r1 <> User_id r2).
Proof.
  split; [|split; [|split]].
  - intros item db. eexists; eexists. split; [reflexivity|].
    cbn. repeat split. apply next_id_fresh.
  - intros user db. eexists; eexists. split; [reflexivity|].
    cbn. repeat split. apply next_id_fresh.
  - intros item1 item2 between w.
    eexists; eexists; eexists; eexists.
    split; [reflexivity|]. split; [reflexivity|].
    cbn [Item_id].
    match goal with
    | |- _ <> next_id (item_ids (store (fst (run between ?w1)))) =>
        destruct (run_items_extend between w1) as [new Hnew]
    end.
    unfold item_ids at 2. rewrite Hnew. cbn [store set_store items].
    match goal with
    | |- ?i <> next_id ?ids => assert (Hlt : i < next_id ids)
    end.
    { apply next_id_above. rewrite !map_app, !in_app_iff.
      left. right. now left. }
    lia.
  - intros user1 user2 between w.
    eexists; eexists; eexists; eexists.
    split; [reflexivity|]. split; [reflexivity|].
    cbn [User_id].
    match goal with
    | |- _ <> next_id (user_ids (store (fst (run between ?w1)))) =>
        destruct (run_users_extend between w1) as [new Hnew]
    end.
    unfold user_ids at 2. rewrite Hnew. cbn [store set_store users].
    match goal with
    | |- ?i <> next_id ?ids => assert (Hlt : i < next_id ids)
    end.
    { apply next_id_above. rewrite !map_app, !in_app_iff.
      left. right. now left. }
    lia.
Qed.

(** ** C4: what a POST does *)

(** C4. For both entities and every request body: when the body validates
    against the Create schema, the endpoint is the Data Access create on
    the validated payload, the store after the request is the one that
    create left, and the answer is the record it returned (the payload's
    fields under the assigned identity) through the Read schema with
    status 200; when the body does not validate, the answer is a
    validation error and the store is unchanged. *)
Theorem post_creates_or_rejects (body : json) (w : World) :
  (forall item : ItemCreate,
      ItemCreate_validate body = Some item ->
      exists db' r,
        create_item item (store w) = (db', Return r)
        /\ crud_item_create_item item (store w) = (db', Return r)
        /\ store (fst (serve (POST_items body) w)) = db'
        /\ snd (serve (POST_items body) w)
           = JSONResponse 200 (Item_schema (Item_id r) item))
  /\ (ItemCreate_validate body = None ->
      snd (serve (POST_items body) w) = RequestValidationError
      /\ store (fst (serve (POST_items body) w)) = store w)
  /\ (forall user : UserCreate,
      UserCreate_validate body = Some user ->
      exists db' r,
        create_user user (store w) = (db', Return r)
        /\ crud_user_create_user user (store w) = (db', Return r)
        /\ store (fst (serve (POST_users body) w)) = db'
        /\ snd (serve (POST_users body) w)
           = JSONResponse 200 (User_schema (User_id r) user))
  /\ (UserCreate_validate body = None ->
      snd (serve (POST_users body) w) = RequestValidationError
      /\ store (fst (serve (POST_users body) w)) = store w).
Proof.
  split; [|split; [|split]].
  - intros item Hvalid. eexists; eexists.
    split; [reflexivity|]. split; [reflexivity|].
    rewrite serve_store, Hvalid. split; [reflexivity|].
    cbn [serve]. rewrite route_with_db_response, Hvalid. reflexivity.
  - intros Hinvalid. rewrite serve_store, Hinvalid. split; [|reflexivity].
    cbn [serve]. rewrite route_with_db_response, Hinvalid. reflexivity.
  - intros user Hvalid. eexists; eexists.
    split; [reflexivity|]. split; [reflexivity|].
    rewrite serve_store, Hvalid. split; [reflexivity|].
    cbn [serve]. rewrite route_with_db_response, Hvalid. reflexivity.
  - intros Hinvalid. rewrite serve_store, Hinvalid. split; [|reflexivity].
    cbn [serve]. rewrite route_with_db_response, Hinvalid. reflexivity.
Qed.

(** ** C5 and C9: the current-user dependency *)

Lemma lookup_by_email (rows : list User) (e : string) :
  match find (fun r => String.eqb (User_email r) e) rows with
  | Some u => In u rows /\ User_email u = e
  | None => forall u, In u rows -> User_email u <> e
  end.
Proof.
  destruct (find _ rows) as [u|] eqn:Hfind.
  - apply find_some in Hfind. destruct Hfind as [Hin Heq].
    split; [exact Hin|]. now apply String.eqb_eq.
  - intros u Hin. apply (find_none _ _ Hfind) in Hin.
    now apply String.eqb_neq.
Qed.

(** C5. For every store and every email value (an omitted one included):
    the dependency raises an [HTTPException], and then one of status 401,
    exactly when no user of the store has that email; when some user has
    it, the dependency returns a user of the store with that email.  The
    store is left as it was. *)
Theorem current_user_by_email (db : Database) (email : option string) :
  ((forall u, In u (users db) -> Some (User_email u) <> email)
   <-> exists e, get_current_user email db = (db, Raise e)
                 /\ status_code e = 401)
  /\ ((exists u, In u (users db) /\ Some (User_email u) = email)
      -> exists u, In u (users db) /\ Some (User_email u) = email
                   /\ get_current_user email db = (db, Return u)).
Proof.
  unfold get_current_user, bind, crud_user_get_user_by_email.
  destruct email as [e|].
  - pose proof (lookup_by_email (users db) e) as Hlook.
    destruct (find _ (users db)) as [u|].
    + destruct Hlook as [Hin Heq]. split; [split|].
      * intros Hnone. exfalso. apply (Hnone u Hin). now rewrite Heq.
      * intros (exc & Hraise & _). discriminate Hraise.
      * intros _. exists u. rewrite Heq. auto.
    + split; [split|].
      * intros _. eexists. split; reflexivity.
      * intros _ u Hin Heq. apply (Hlook u Hin). congruence.
      * intros (u & Hin & Heq). exfalso. apply (Hlook u Hin). congruence.
  - split; [split|].
    + intros _. eexists. split; reflexivity.
    + intros _ u _. discriminate.
    + intros (u & _ & Heq). discriminate Heq.
Qed.

(** C9. Whenever the dependency fails, the exception it raises is the
    [HTTPException] of status 401 with detail ["Invalid credentials"] and
    no other; and it fails so whenever the lookup by email returns no
    user, the email being given or omitted. *)
Theorem current_user_failure_detail (db : Database) (email : option string) :
  (forall db' e,
      get_current_user email db = (db', Raise e) ->
      e = {| status_code := 401; detail := "Invalid credentials" |})
  /\ (forall db',
      crud_user_get_user_by_email email db = (db', Return None) ->
      get_current_user email db
      = (db', Raise {| status_code := 401;
                       detail := "Invalid credentials" |})).
Proof.
  split.
  - intros db' e. unfold get_current_user, bind.
    destruct (crud_user_get_user_by_email email db) as [db1 [[u|]|e1]] eqn:Hq;
      unfold ret, raise; intros Heq.
    + discriminate Heq.
    + now inversion Heq.
    + exfalso. unfold crud_user_get_user_by_email in Hq.
      destruct email; discriminate Hq.
  - intros db' Hq. unfold get_current_user, bind. now rewrite Hq.
Qed.

(** ** C6: the root endpoint *)

(** C6. Whatever the state of the application (records, sessions),
    [GET /] answers with status 200 and exactly
    [{"message": "Welcome to the FastAPI application!"}], so the answer is
    the same in any two states. *)
Theorem root_is_static :
  read_root = JObj [("message", JStr "Welcome to the FastAPI application!")]
  /\ (forall w : World,
      snd (serve GET_root w)
      = JSONResponse 200
          (JObj [("message", JStr "Welcome to the FastAPI application!")]))
  /\ (forall w1 w2 : World,
      snd (serve GET_root w1) = snd (serve GET_root w2)).
Proof.
  repeat split.
Qed.

(** ** C7: the versioned prefix *)

(** C7. The prefix is the [API_V1_STR] setting: the value found in the
    environment when there is one and ["/api/v1"] otherwise; the item
    routes are mounted at prefix + ["/items"] and the user routes at
    prefix + ["/users"], the root route at ["/"]; with nothing set the
    routes are [/api/v1/items/], [/api/v1/items/{item_id}],
    [/api/v1/users/] and [/api/v1/users/{user_id}]. *)
Theorem routes_under_prefix :
  Config.API_V1_STR (Config.settings Config.environ_unset) = "/api/v1"
  /\ (forall env : Config.Environ,
      Config.API_V1_STR (Config.settings env)
      = match Config.env_API_V1_STR env with
        | Some prefix => prefix
        | None => "/api/v1"
        end)
  /\ (forall s : Config.Settings,
      map (fun r => (route_method r, route_path r, route_endpoint r))
        (app_routes s)
      = [ (POST, String.append (Config.API_V1_STR s) "/items/",
           Ecreate_item);
          (GET, String.append (Config.API_V1_STR s) "/items/{item_id}",
           Eread_item);
          (POST, String.append (Config.API_V1_STR s) "/users/",
           Ecreate_user);
          (GET, String.append (Config.API_V1_STR s) "/users/{user_id}",
           Eread_user);
          (GET, "/", Eread_root) ])
  /\ map (fun r => (route_method r, route_path r, route_endpoint r))
       (app_routes (Config.settings Config.environ_unset))
     = [ (POST, "/api/v1/items/", Ecreate_item);
         (GET, "/api/v1/items/{item_id}", Eread_item);
         (POST, "/api/v1/users/", Ecreate_user);
         (GET, "/api/v1/users/{user_id}", Eread_user);
         (GET, "/", Eread_root) ].
Proof.
  split; [reflexivity|]. split; [intros env; reflexivity|].
  split; [|reflexivity].
  intros s. unfold app_routes, include_router, items_router, users_router.
  cbn [map app route_method route_path route_endpoint].
  now rewrite !string_append_assoc.
Qed.

(** ** C8: the session of a request *)





(** ** C10: reads leave the store alone *)

(** C10. The two read endpoints hand the store back as they found it,
    whether they return a record or raise the 404; the store after
    [GET /items/{id}] and after [GET /users/{id}] is the store from before
    the request, and [GET /] leaves the whole state as it is. *)
Theorem gets_leave_store :
  (forall (id : Z) (db : Database), fst (read_item id db) = db)
  /\ (forall (id : Z) (db : Database), fst (read_user id db) = db)
  /\ (forall (id : Z) (w : World),
      store (fst (serve (GET_items id) w)) = store w)
  /\ (forall (id : Z) (w : World),
      store (fst (serve (GET_users id) w)) = store w)
  /\ (forall w : World, fst (serve GET_root w) = w).
Proof.
  split; [exact read_item_store|]. split; [exact read_user_store|].
  split; [|split].
  - intros id w. now rewrite serve_store.
  - intros id w. now rewrite serve_store.
  - reflexivity.
Qed.

(** * Further properties of the code *)

(** ** The route table of main.py *)

Lemma app_routes_paths (s : Config.Settings) :
  map route_path (app_routes s)
  = [ String.append (Config.API_V1_STR s) "/items/";
      String.append (Config.API_V1_STR s) "/items/{item_id}";
      String.append (Config.API_V1_STR s) "/users/";
      String.append (Config.API_V1_STR s) "/users/{user_id}";
      "/" ].
Proof.
  unfold app_routes, include_router, items_router, users_router.
  cbn [map app route_path]. now rewrite !string_append_assoc.
Qed.

(** Two paths of the table are equal: either both are the prefix followed
    by different literals, or one is ["/"] and the other is longer. *)
Ltac path_clash H :=
  first
    [ apply string_append_inj_l in H; discriminate H
    | apply (f_equal String.length) in H;
      rewrite ?string_length_append in H; simpl in H; lia ].

(** X1. Whatever the configured prefix (the empty one and ["/"]
    included), the five routes that main.py registers have five different
    paths: no route of the application hides another. *)
Theorem routes_pairwise_distinct (s : Config.Settings) :
  NoDup (map route_path (app_routes s)).
Proof.
  rewrite app_routes_paths.
  repeat (constructor;
          [ cbn [In]; intros Hin;
            repeat (destruct Hin as [Hin|Hin]; [path_clash Hin|]);
            exact Hin
          | ]).
  constructor.
Qed.

(** ** The read endpoints, read backwards *)

(** X3. Whatever a read endpoint comes to tells what the table holds: a
    returned record is a row of the table and carries the requested
    identity; a raised exception is the 404 with the endpoint's fixed
    detail and no other, and then no row has the requested identity.
    Either way the store is handed back as it was. *)
Theorem read_outcome_sound (id : Z) (db db' : Database) :
  (forall o,
      read_item id db = (db', o) ->
      db' = db
      /\ match o with
         | Return r => In r (items db) /\ Item_id r = id
         | Raise e =>
             e = {| status_code := 404; detail := "Item not found" |}
             /\ ~ In id (item_ids db)
         end)
  /\ (forall o,
      read_user id db = (db', o) ->
      db' = db
      /\ match o with
         | Return r => In r (users db) /\ User_id r = id
         | Raise e =>
             e = {| status_code := 404; detail := "User not found" |}
             /\ ~ In id (user_ids db)
         end).
Proof.
  split; intros o.
  - unfold read_item, bind, crud_item_get_item, ret, raise.
    destruct (find _ (items db)) as [r|] eqn:Hfind; intros Heq;
      inversion Heq; subst; split; try reflexivity.
    + apply find_some in Hfind. destruct Hfind as [Hin Hk].
      split; [exact Hin|]. now apply Z.eqb_eq.
    + split; [reflexivity|]. now apply find_key_none in Hfind.
  - unfold read_user, bind, crud_user_get_user, ret, raise.
    destruct (find _ (users db)) as [r|] eqn:Hfind; intros Heq;
      inversion Heq; subst; split; try reflexivity.
    + apply find_some in Hfind. destruct Hfind as [Hin Hk].
      split; [exact Hin|]. now apply Z.eqb_eq.
    + split; [reflexivity|]. now apply find_key_none in Hfind.
Qed.

(** ** Records stay *)

Lemma read_item_extend (id : Z) (db db' : Database) (new : list Item)
  (r : Item) :
  items db' = items db ++ new ->
  read_item id db = (db, Return r) -> read_item id db' = (db', Return r).
Proof.
  unfold read_item, bind, crud_item_get_item, ret, raise. intros Hext.
  destruct (find _ (items db)) as [r0|] eqn:Hfind; intros Heq;
    [|discriminate Heq].
  rewrite Hext, (find_app_some _ _ _ _ Hfind). congruence.
Qed.

Lemma read_user_extend (id : Z) (db db' : Database) (new : list User)
  (r : User) :
  users db' = users db ++ new ->
  read_user id db = (db, Return r) -> read_user id db' = (db', Return r).
Proof.
  unfold read_user, bind, crud_user_get_user, ret, raise. intros Hext.
  destruct (find _ (users db)) as [r0|] eqn:Hfind; intros Heq;
    [|discriminate Heq].
  rewrite Hext, (find_app_some _ _ _ _ Hfind). congruence.
Qed.

Lemma get_current_user_extend (email : option string) (db db' : Database)
  (new : list User) (u : User) :
  users db' = users db ++ new ->
  get_current_user email db = (db, Return u) ->
  exists u',
    get_current_user email db' = (db', Return u')
    /\ In u' (users db') /\ Some (User_email u') = email.
Proof.
  unfold get_current_user, bind, crud_user_get_user_by_email, ret, raise.
  intros Hext. destruct email as [e|]; [|discriminate].
  destruct (find _ (users db)) as [u0|] eqn:Hfind; intros Heq;
    [|discriminate Heq].
  pose proof (find_app_some _ _ new _ Hfind) as Hfind'.
  rewrite <- Hext in Hfind'. rewrite Hfind'. exists u0.
  apply find_some in Hfind'. destruct Hfind' as [Hin He].
  apply String.eqb_eq in He. rewrite He. auto.
Qed.

(** X4. No endpoint updates or deletes: a record that a read endpoint
    returns for an identity is returned for it, unchanged, after any
    further sequence of requests; and an email that the current-user
    dependency resolves to a user is still resolved, to a stored user
    with that email, after any further sequence of requests. *)
Theorem records_persist (reqs : list request) (w : World) :
  (forall id r,
      read_item id (store w) = (store w, Return r) ->
      read_item id (store (fst (run reqs w)))
      = (store (fst (run reqs w)), Return r))
  /\ (forall id r,
      read_user id (store w) = (store w, Return r) ->
      read_user id (store (fst (run reqs w)))
      = (store (fst (run reqs w)), Return r))
  /\ (forall email u,
      get_current_user email (store w) = (store w, Return u) ->
      exists u',
        get_current_user email (store (fst (run reqs w)))
        = (store (fst (run reqs w)), Return u')
        /\ In u' (users (store (fst (run reqs w))))
        /\ Some (User_email u') = email).
Proof.
  destruct (run_items_extend reqs w) as [new_items Hitems].
  destruct (run_users_extend reqs w) as [new_users Husers].
  split; [|split].
  - intros id r. now apply read_item_extend with (new := new_items).
  - intros id r. now apply read_user_extend with (new := new_users).
  - intros email u.
    now apply get_current_user_extend with (new := new_users).
Qed.

(** ** The two entities do not meet *)

Lemma read_item_same_items (id : Z) (db1 db2 : Database) :
  items db1 = items db2 -> snd (read_item id db1) = snd (read_item id db2).
Proof.
  unfold read_item, bind, crud_item_get_item. intros ->.
  now destruct (find _ (items db2)).
Qed.

Lemma read_user_same_users (id : Z) (db1 db2 : Database) :
  users db1 = users db2 -> snd (read_user id db1) = snd (read_user id db2).
Proof.
  unfold read_user, bind, crud_user_get_user. intros ->.
  now destruct (find _ (users db2)).
Qed.

Lemma get_current_user_same_users (email : option string)
  (db1 db2 : Database) :
  users db1 = users db2 ->
  snd (get_current_user email db1) = snd (get_current_user email db2).
Proof.
  unfold get_current_user, bind, crud_user_get_user_by_email. intros ->.
  destruct email as [e|]; [|reflexivity].
  now destruct (find _ (users db2)).
Qed.

Lemma serve_GET_items (id : Z) (w : World) :
  snd (serve (GET_items id) w)
  = render Item_response_model (snd (read_item id (store w))).
Proof.
  cbn [serve]. now rewrite route_with_db_response, call_respond.
Qed.

Lemma serve_GET_users (id : Z) (w : World) :
  snd (serve (GET_users id) w)
  = render User_response_model (snd (read_user id (store w))).
Proof.
  cbn [serve]. now rewrite route_with_db_response, call_respond.
Qed.

Lemma POST_items_users (body : json) (w : World) :
  users (store (fst (serve (POST_items body) w))) = users (store w).
Proof.
  rewrite serve_store. now destruct (ItemCreate_validate body).
Qed.

Lemma POST_users_items (body : json) (w : World) :
  items (store (fst (serve (POST_users body) w))) = items (store w).
Proof.
  rewrite serve_store. now destruct (UserCreate_validate body).
Qed.

(** X5. The item endpoints and the user endpoints work on tables of their
    own: a [POST /items/], accepted or not, leaves the users table as it
    is, so every [GET /users/{id}] and every current-user lookup answers
    after it as before it; and a [POST /users/] does as little to the
    items table and to the answers of [GET /items/{id}]. *)
Theorem entities_independent (body : json) (w : World) :
  (users (store (fst (serve (POST_items body) w))) = users (store w)
   /\ (forall id,
        snd (serve (GET_users id) (fst (serve (POST_items body) w)))
        = snd (serve (GET_users id) w))
   /\ (forall email,
        snd (get_current_user email
               (store (fst (serve (POST_items body) w))))
        = snd (get_current_user email (store w))))
  /\ (items (store (fst (serve (POST_users body) w))) = items (store w)
      /\ (forall id,
           snd (serve (GET_items id) (fst (serve (POST_users body) w)))
           = snd (serve (GET_items id) w))).
Proof.
  pose proof (POST_items_users body w) as Hu.
  pose proof (POST_users_items body w) as Hi.
  repeat split; try assumption.
  - intros id. rewrite !serve_GET_users. f_equal.
    now apply read_user_same_users.
  - intros email. now apply get_current_user_same_users.
  - intros id. rewrite !serve_GET_items. f_equal.
    now apply read_item_same_items.
Qed.

(** ** Creating a user, then asking for the current user *)

(** X6. When [create_user] returns a record, the current-user dependency
    asked right afterwards for the created user's email does not raise:
    it returns a stored user with that email; and when no earlier user
    had that email, the user it returns is the record just created. *)
Theorem current_user_after_create (user : UserCreate) (db db' : Database)
  (r : User) :
  create_user user db = (db', Return r) ->
  (exists u,
      get_current_user (Some (UserCreate_email user)) db' = (db', Return u)
      /\ In u (users db')
      /\ User_email u = UserCreate_email user)
  /\ ((forall u, In u (users db) -> User_email u <> UserCreate_email user) ->
      get_current_user (Some (UserCreate_email user)) db' = (db', Return r)).
Proof.
  unfold create_user, crud_user_create_user. intros Hcreate.
  injection Hcreate as <- <-.
  unfold get_current_user, bind, crud_user_get_user_by_email, ret, raise.
  cbn [users].
  pose proof (lookup_by_email (users db) (UserCreate_email user)) as Hlook.
  destruct (find _ (users db)) as [u0|] eqn:Hfind.
  - destruct Hlook as [Hin Heq]. split.
    + exists u0. rewrite (find_app_some _ _ _ _ Hfind).
      split; [reflexivity|]. split; [|exact Heq].
      apply in_or_app. now left.
    + intros Hnone. exfalso. now apply (Hnone u0 Hin).
  - rewrite (find_app_none _ _ _ Hfind). cbn [find].
    assert (Hnew : String.eqb
                     (User_email {| User_id := next_id (user_ids db);
                                    User_fields := user |})
                     (UserCreate_email user) = true)
      by apply String.eqb_refl.
    rewrite Hnew. split; [|reflexivity].
    eexists. split; [reflexivity|]. split; [|reflexivity].
    apply in_or_app. right. now left.
Qed.

(** ** Primary keys *)

Lemma read_item_returned (id : Z) (db db' : Database) (r : Item) :
  read_item id db = (db', Return r) -> In r (items db) /\ Item_id r = id.
Proof.
  unfold read_item, bind, crud_item_get_item, ret, raise.
  destruct (find _ (items db)) as [r0|] eqn:Hfind; intros Heq;
    inversion Heq; subst.
  apply find_some in Hfind. destruct Hfind as [Hin Hk].
  split; [exact Hin|]. now apply Z.eqb_eq.
Qed.

Lemma read_user_returned (id : Z) (db db' : Database) (r : User) :
  read_user id db = (db', Return r) -> In r (users db) /\ User_id r = id.
Proof.
  unfold read_user, bind, crud_user_get_user, ret, raise.
  destruct (find _ (users db)) as [r0|] eqn:Hfind; intros Heq;
    inversion Heq; subst.
  apply find_some in Hfind. destruct Hfind as [Hin Hk].
  split; [exact Hin|]. now apply Z.eqb_eq.
Qed.

(** X7. The endpoints keep the primary keys apart: from tables in which
    no two rows share an identity, any sequence of requests leads to
    tables in which no two rows share an identity, and there the record a
    read endpoint returns for an identity is the only row with it. *)
Theorem primary_keys_stay_unique (reqs : list request) (w : World) :
  NoDup (item_ids (store w)) ->
  NoDup (user_ids (store w)) ->
  NoDup (item_ids (store (fst (run reqs w))))
  /\ NoDup (user_ids (store (fst (run reqs w))))
  /\ (forall id db' r r',
        read_item id (store (fst (run reqs w))) = (db', Return r) ->
        In r' (items (store (fst (run reqs w)))) ->
        Item_id r' = id -> r' = r)
  /\ (forall id db' r r',
        read_user id (store (fst (run reqs w))) = (db', Return r) ->
        In r' (users (store (fst (run reqs w)))) ->
        User_id r' = id -> r' = r).
Proof.
  intros Hi Hu.
  destruct (run_keeps_ids_unique reqs w (conj Hi Hu)) as [Hi' Hu'].
  split; [exact Hi'|]. split; [exact Hu'|]. split.
  - intros id db' r r' Hread Hin' Hid'.
    apply read_item_returned in Hread. destruct Hread as [Hin Hid].
    apply (NoDup_map_eq Item_id _ _ _ Hi' Hin' Hin). congruence.
  - intros id db' r r' Hread Hin' Hid'.
    apply read_user_returned in Hread. destruct Hread as [Hin Hid].
    apply (NoDup_map_eq User_id _ _ _ Hu' Hin' Hin). congruence.
Qed.

End Properties.

(** * The properties on the example *)

#[local] Existing Instance example_schemas.

Lemma example_world_eq :
  example_world
  = {| store :=
         {| items := [ @Build_Item example_schemas 1 "first" ];
            users := [ @Build_User example_schemas 1 "a@example.com" ] |};
       session_count := 2;
       open_sessions := [] |}.
Proof. reflexivity. Qed.

(** The scenario of the specification: the created user comes back with
    [id = 1], [GET /users/1] answers with the same body and
    [GET /users/999] with the 404. *)
Example example_scenario :
  snd (@run example_schemas
         [POST_users example_user_body; GET_users 1; GET_users 999] startup)
  = [ JSONResponse 200 (JObj [("id", JInt 1); ("email", JStr "a@example.com")]);
      JSONResponse 200 (JObj [("id", JInt 1); ("email", JStr "a@example.com")]);
      JSONResponse 404 (JObj [("detail", JStr "User not found")]) ].
Proof. reflexivity. Qed.

Lemma read_by_id_witness :
  (snd (serve (GET_items 999) example_world)
   = JSONResponse 404 (JObj [("detail", JStr "Item not found")]))
  /\ (snd (serve (GET_users 999) example_world)
      = JSONResponse 404 (JObj [("detail", JStr "User not found")]))
  /\ (exists r, In r (items (store example_world)) /\ Item_id r = 1
        /\ snd (serve (GET_items 1) example_world)
           = JSONResponse 200 (Item_schema (Item_id r) (Item_fields r)))
  /\ (exists r, In r (users (store example_world)) /\ User_id r = 1
        /\ snd (serve (GET_users 1) example_world)
           = JSONResponse 200 (User_schema (User_id r) (User_fields r))).
Proof.
  destruct (read_by_id example_world 999) as (Hi0 & Hu0 & _).
  destruct (read_by_id example_world 1) as (_ & _ & Hi1 & Hu1).
  split; [|split; [|split]].
  - apply Hi0. vm_compute. intros [H|[]]. discriminate H.
  - apply Hu0. vm_compute. intros [H|[]]. discriminate H.
  - destruct Hi1 as (r & Hin & Hid & _ & Hresp).
    + vm_compute. left. reflexivity.
    + exists r. auto.
  - destruct Hu1 as (r & Hin & Hid & _ & Hresp).
    + vm_compute. left. reflexivity.
    + exists r. auto.
Defined.

Lemma post_creates_or_rejects_witness :
  (exists r,
      snd (serve (POST_users example_user_body) example_world)
      = JSONResponse 200
          (@User_schema example_schemas (User_id r) "a@example.com"))
  /\ snd (serve (POST_items example_user_body) example_world)
     = RequestValidationError
  /\ (exists r,
      snd (serve (POST_items example_item_body) example_world)
      = JSONResponse 200
          (@Item_schema example_schemas (Item_id r) "first"))
  /\ snd (serve (POST_users example_item_body) example_world)
     = RequestValidationError.
Proof.
  destruct (post_creates_or_rejects example_user_body example_world)
    as (_ & Hi0 & Hu1 & _).
  destruct (post_creates_or_rejects example_item_body example_world)
    as (Hi1 & _ & _ & Hu0).
  split; [|split; [|split]].
  - destruct (Hu1 "a@example.com" eq_refl) as (db' & r & _ & _ & _ & Hresp).
    exists r. exact Hresp.
  - apply Hi0. reflexivity.
  - destruct (Hi1 "first" eq_refl) as (db' & r & _ & _ & _ & Hresp).
    exists r. exact Hresp.
  - apply Hu0. reflexivity.
Defined.

Lemma current_user_by_email_witness :
  (exists e,
      get_current_user (Some "b@example.com") (store example_world)
      = (store example_world, Raise e) /\ status_code e = 401)
  /\ (exists e,
      get_current_user None (store example_world)
      = (store example_world, Raise e) /\ status_code e = 401)
  /\ (exists u,
      In u (users (store example_world))
      /\ Some (User_email u) = Some "a@example.com"
      /\ get_current_user (Some "a@example.com") (store example_world)
         = (store example_world, Return u)).
Proof.
  split; [|split].
  - apply (proj1 (current_user_by_email (store example_world)
                    (Some "b@example.com"))).
    vm_compute. intros u [<-|[]] H. discriminate H.
  - apply (proj1 (current_user_by_email (store example_world) None)).
    intros u _ H. discriminate H.
  - apply (proj2 (current_user_by_email (store example_world)
                    (Some "a@example.com"))).
    eexists. split; [left; reflexivity|reflexivity].
Defined.

Lemma current_user_failure_detail_witness :
  get_current_user None (store (@startup example_schemas))
  = (store startup,
     Raise {| status_code := 401; detail := "Invalid credentials" |})
  /\ get_current_user (Some "b@example.com") (store example_world)
     = (store example_world,
        Raise {| status_code := 401; detail := "Invalid credentials" |}).
Proof.
  split.
  - apply (proj2 (current_user_failure_detail (store startup) None)).
    reflexivity.
  - apply (proj2 (current_user_failure_detail (store example_world)
                    (Some "b@example.com"))).
    reflexivity.
Defined.


(** A POST whose body is not JSON, on the application as started: it is
    refused with the validation error and no session was created. *)
Example unread_body_acquires_no_session :
  @serve example_schemas (POST_items_unread JSONDecodeError) startup
  = (startup, RequestValidationError).
Proof. reflexivity. Qed.


(** ** The further properties on the example *)

Lemma read_outcome_sound_witness :
  (In (Build_Item 1 "first") (items (store example_world))
   /\ Item_id (Build_Item 1 "first") = 1)
  /\ ~ In 999 (user_ids (store example_world)).
Proof.
  split.
  - destruct (read_outcome_sound 1 (store example_world)
                (store example_world)) as [Hitem _].
    exact (proj2 (Hitem (Return (@Build_Item example_schemas 1 "first"))
                    eq_refl)).
  - destruct (read_outcome_sound 999 (store example_world)
                (store example_world)) as [_ Huser].
    exact (proj2 (proj2 (Huser (Raise {| status_code := 404;
                                         detail := "User not found" |})
                           eq_refl))).
Defined.

Lemma records_persist_witness :
  let later :=
    fst (run [POST_users example_user_body; POST_items example_item_body;
              GET_items 7; GET_users_invalid; Unrouted]
           example_world) in
  read_item 1 (store later)
  = (store later, Return (Build_Item 1 "first"))
  /\ read_user 1 (store later)
     = (store later, Return (Build_User 1 "a@example.com"))
  /\ (exists u',
        get_current_user (Some "a@example.com") (store later)
        = (store later, Return u')
        /\ In u' (users (store later))
        /\ Some (User_email u') = Some "a@example.com").
Proof.
  intros later.
  destruct (records_persist
              [POST_users example_user_body; POST_items example_item_body;
               GET_items 7; GET_users_invalid; Unrouted]
              example_world) as (Hitem & Huser & Hcurrent).
  split; [|split].
  - apply Hitem. reflexivity.
  - apply Huser. reflexivity.
  - apply (Hcurrent (Some "a@example.com")
             (@Build_User example_schemas 1 "a@example.com")).
    reflexivity.
Defined.

Lemma current_user_after_create_witness :
  (exists u,
      get_current_user (Some "b@example.com")
        (fst (create_user "b@example.com" (store example_world)))
      = (fst (create_user "b@example.com" (store example_world)), Return u)
      /\ User_email u = "b@example.com")
  /\ get_current_user (Some "b@example.com")
       (fst (create_user "b@example.com" (store example_world)))
     = (fst (create_user "b@example.com" (store example_world)),
        Return (Build_User 2 "b@example.com")).
Proof.
  destruct (@current_user_after_create example_schemas "b@example.com"
              (store example_world) _ _ eq_refl)
    as [(u & Hcurrent & _ & Hemail) Hfresh].
  split.
  - exists u. split; assumption.
  - apply Hfresh. vm_compute. intros u0 [<-|[]] H. discriminate H.
Defined.

Lemma primary_keys_stay_unique_witness :
  NoDup (item_ids
           (store (fst (run [POST_items example_item_body;
                             POST_items example_item_body;
                             POST_users example_user_body]
                          example_world))))
  /\ NoDup (user_ids
              (store (fst (run [POST_items example_item_body;
                                POST_items example_item_body;
                                POST_users example_user_body]
                             example_world)))).
Proof.
  destruct (primary_keys_stay_unique
              [POST_items example_item_body; POST_items example_item_body;
               POST_users example_user_body]
              example_world) as (Hitems & Husers & _).
  - vm_compute. repeat constructor. intros [].
  - vm_compute. repeat constructor. intros [].
  - split; assumption.
Defined.
